(** * utility.py: the tag registry [AbstractFactory] and the decorator
      [auto_field_assignment]

    A shallow embedding of [src/utility.py].  The class attribute
    [AbstractFactory.registry] is one dictionary object that every subclass
    inherits; [register] and [create] reach it through [cls.registry] and
    [register] mutates it in place, so the embedding threads a single table
    through all calls, whichever class makes them. *)

From Stdlib Require Import String Ascii List ZArith Lia.
From stdpp Require Import base option list gmap strings.

Local Open Scope string_scope.
Set Warnings "-register-all".

(** ** Python values, exceptions and results *)

(** The values passed around as arguments.  An object carries its attribute
    dictionary in insertion order. *)
Inductive value : Type :=
| VNone
| VInt (z : Z)
| VStr (s : string)
| VObj (attrs : list (string * value)).

(** The exceptions the module can raise itself, and [UserError] for whatever a
    registered constructor or a wrapped function raises on its own. *)
Inductive exn : Type :=
| AssertionError (msg : string)
| NotImplementedError (msg : string)
| KeyError (key : string)
| TypeError (msg : string)
| IndexError (msg : string)
| AttributeError (msg : string)
| UserError (payload : value).

Inductive result (A : Type) : Type :=
| Ok (a : A)
| Raise (e : exn).
Arguments Ok {A} a.
Arguments Raise {A} e.

(** Keyword arguments: a dictionary in insertion order. *)
Abbreviation kwargs_t := (list (string * value)).

(** A registree: any callable with a [__name__].  [callable_id] stands for the
    identity of the object, [callable_call] for what calling it returns or
    raises. *)
Record Callable : Type := {
  callable_id : nat;
  callable_name : string;   (* registree.__name__ *)
  callable_call : list value -> kwargs_t -> result value
}.

(** A class object: its identity, [__module__] and [__name__]. *)
Record PyClass : Type := {
  cls_id : nat;
  cls_module : string;      (* cls.__module__ *)
  cls_name : string         (* cls.__name__ *)
}.

(** ** The registry table and the monad of code that reads and writes it *)

Abbreviation Registry := (gmap string Callable).

Definition M (A : Type) : Type := Registry -> Registry * result A.

Definition ret {A} (a : A) : M A := fun reg => (reg, Ok a).

Definition raise {A} (e : exn) : M A := fun reg => (reg, Raise e).

Definition bind {A B} (m : M A) (k : A -> M B) : M B :=
  fun reg =>
    match m reg with
    | (reg', Ok a) => k a reg'
    | (reg', Raise e) => (reg', Raise e)
    end.

Notation "x <- m ;; k" := (bind m (fun x => k))
  (at level 100, m at next level, right associativity).
Notation "m ;;; k" := (bind m (fun _ => k))
  (at level 100, right associativity).

(** [key in cls.registry] *)
Definition contains (key : string) : M bool :=
  fun reg => (reg, Ok (bool_decide (is_Some (reg !! key)))).

(** [cls.registry[key] = v] *)
Definition setitem (key : string) (v : Callable) : M unit :=
  fun reg => (<[key := v]> reg, Ok tt).

(** [cls.registry[key]] *)
Definition getitem (key : string) : M Callable :=
  fun reg =>
    match reg !! key with
    | Some c => (reg, Ok c)
    | None => (reg, Raise (KeyError key))
    end.

(** [assert cond, msg], with assertions enabled as they are unless the
    interpreter is started with [-O]. *)
Definition py_assert (cond : bool) (msg : string) : M unit :=
  if cond then ret tt else raise (AssertionError msg).

(** Calling a callable: its outcome.  Registrees are taken not to register
    anything themselves, so the table is untouched. *)
Definition call (f : Callable) (args : list value) (kwargs : kwargs_t) : M value :=
  fun reg => (reg, callable_call f args kwargs).

(** Truthiness of an optional string argument: [None] and [""] are false. *)
Definition truthy (s : option string) : bool :=
  match s with
  | None => false
  | Some "" => false
  | Some _ => true
  end.

(** ** class AbstractFactory *)

(** [default_tag]: [registree.__name__] *)
Definition default_tag (registree : Callable) : string :=
  callable_name registree.

(** [namespace]: [f"{cls.__module__}.{cls.__name__}"] *)
Definition namespace (cls : PyClass) : string :=
  cls_module cls +:+ "." +:+ cls_name cls.

(** [canonicalize]: [f"{cls.namespace()}.{tag}"] *)
Definition canonicalize (cls : PyClass) (tag : string) : string :=
  namespace cls +:+ "." +:+ tag.

Definition duplicate_msg (tag : string) : string :=
  "Duplicate tag registration found! Tag " +:+ tag +:+ " has already been registered".

Definition unregistered_msg (tag ns : string) : string :=
  "Tag " +:+ tag +:+ " is not registered in the namespace " +:+ ns.

(** [custom_tag if custom_tag else cls.default_tag(registree)] *)
Definition effective_tag (custom_tag : option string) (registree : Callable) : string :=
  match custom_tag with
  | Some t => if truthy custom_tag then t else default_tag registree
  | None => default_tag registree
  end.

(** [register(custom_tag)(registree)]: the inner [decorator] applied to
    [registree]. *)
Definition register (cls : PyClass) (custom_tag : option string)
    (registree : Callable) : M Callable :=
  let tag := effective_tag custom_tag registree in
  let tag := canonicalize cls tag in
  present <- contains tag ;;
  py_assert (negb present) (duplicate_msg tag) ;;;
  setitem tag registree ;;;
  ret registree.

Definition multiple_values_msg (name : string) : string :=
  "create() got multiple values for argument '" +:+ name +:+ "'".

(** Binding the keyword arguments of a call [F.create(T, ...)] to the
    signature [create(cls, tag, *args, **kwargs)]: [cls] and [tag] are filled
    already, so the first keyword with one of these names is a [TypeError];
    every other keyword goes to [**kwargs]. *)
Fixpoint bind_create (kwargs : kwargs_t) : result unit :=
  match kwargs with
  | [] => Ok tt
  | (name, _) :: kwargs' =>
      if String.eqb name "cls" || String.eqb name "tag"
      then Raise (TypeError (multiple_values_msg name))
      else bind_create kwargs'
  end.

(** A result computed without the table. *)
Definition of_result {A} (r : result A) : M A := fun reg => (reg, r).

(** [create(tag, *args, **kwargs)], called as [F.create(T, ...)] with the tag
    as first positional argument. *)
Definition create (cls : PyClass) (tag : string) (args : list value)
    (kwargs : kwargs_t) : M value :=
  of_result (bind_create kwargs) ;;;
  let tag := canonicalize cls tag in
  present <- contains tag ;;
  if present
  then f <- getitem tag ;; call f args kwargs
  else raise (NotImplementedError (unregistered_msg tag (namespace cls))).

(** ** def auto_field_assignment *)

(** [d[k] = v] on a dictionary kept in insertion order: an existing key keeps
    its place, a new key goes last. *)
Fixpoint dict_set (d : kwargs_t) (k : string) (v : value) : kwargs_t :=
  match d with
  | [] => [(k, v)]
  | (k', v') :: d' =>
      if String.eqb k' k then (k', v) :: d' else (k', v') :: dict_set d' k v
  end.

(** [setattr(obj, name, v)]: objects take the attribute, other values refuse
    it. *)
Definition setattr (obj : value) (name : string) (v : value) : result value :=
  match obj with
  | VObj attrs => Ok (VObj (dict_set attrs name v))
  | _ => Raise (AttributeError name)
  end.

(** [name in special_items]: membership in a list, a [TypeError] on [None]. *)
Definition py_in (name : string) (special_items : option (list string)) : result bool :=
  match special_items with
  | None => Raise (TypeError "argument of type 'NoneType' is not iterable")
  | Some items => Ok (existsb (String.eqb name) items)
  end.

(** The wrapped function: the parameter names of [inspect.signature(func)] in
    order, and what [func(self_, **kwargs)] does: the object afterwards and the
    outcome. *)
Record WrappedFunc : Type := {
  func_params : list string;
  func_call : value -> kwargs_t -> value * result value
}.

(** [(param for param in signature.parameters if param != "self")] *)
Definition parameters (func : WrappedFunc) : list string :=
  filter (fun param => negb (String.eqb param "self")) (func_params func).

(** [for name, value in zip(parameters, args[1:]): kwargs[name] = value] *)
Definition merge_args (params : list string) (rest : list value)
    (kwargs : kwargs_t) : kwargs_t :=
  fold_left (fun kw nv => dict_set kw (fst nv) (snd nv)) (combine params rest) kwargs.

(** The loop over [kwargs.items()]: the object as the loop leaves it, and
    whether the loop finished. *)
Fixpoint assign_fields (special_items : option (list string)) (self_ : value)
    (items : kwargs_t) : value * result unit :=
  match items with
  | [] => (self_, Ok tt)
  | (name, v) :: items' =>
      match py_in name special_items with
      | Raise e => (self_, Raise e)
      | Ok true => assign_fields special_items self_ items'
      | Ok false =>
          match setattr self_ name v with
          | Raise e => (self_, Raise e)
          | Ok self' => assign_fields special_items self' items'
          end
      end
  end.

(** Where the body of [decorated] stands when it reaches its last line: it
    raised before ([Failed], with the object if there was one), or it is about
    to evaluate [func(self_, **kwargs)] ([Called]). *)
Inductive progress : Type :=
| Failed (self_ : option value) (e : exn)
| Called (self_ : value) (kwargs : kwargs_t).

(** [decorated] up to, and without, its last line. *)
Definition prepare (special_items : option (list string)) (func : WrappedFunc)
    (args : list value) (kwargs : kwargs_t) : progress :=
  match args with
  | [] => Failed None (IndexError "tuple index out of range")
  | self_ :: rest =>
      let kwargs := merge_args (parameters func) rest kwargs in
      match assign_fields special_items self_ kwargs with
      | (self_, Raise e) => Failed (Some self_) e
      | (self_, Ok _) => Called self_ kwargs
      end
  end.

(** The inner function [decorated] of [decorator(func)]: the object afterwards
    (when there is one) and the outcome; [decorated] returns [None]. *)
Definition decorated (special_items : option (list string))
    (func : WrappedFunc) (args : list value) (kwargs : kwargs_t)
    : option value * result value :=
  match prepare special_items func args kwargs with
  | Failed self_ e => (self_, Raise e)
  | Called self_ kwargs =>
      match func_call func self_ kwargs with
      | (self_, Raise e) => (Some self_, Raise e)
      | (self_, Ok _) => (Some self_, Ok VNone)
      end
  end.

(** [auto_field_assignment(special_items)(func)] is that function. *)
Definition auto_field_assignment (special_items : option (list string))
    (func : WrappedFunc) : list value -> kwargs_t -> option value * result value :=
  decorated special_items func.

(** ** Histories of calls *)

(** A call made on the module: a registration or a creation, by any class. *)
Inductive op : Type :=
| Register (cls : PyClass) (custom_tag : option string) (registree : Callable)
| Create (cls : PyClass) (tag : string) (args : list value) (kwargs : kwargs_t).

(** The table after a call, whatever the call returned or raised. *)
Definition run_op (o : op) (reg : Registry) : Registry :=
  match o with
  | Register cls custom_tag registree => fst (register cls custom_tag registree reg)
  | Create cls tag args kwargs => fst (create cls tag args kwargs reg)
  end.

Definition run_ops (ops : list op) (reg : Registry) : Registry :=
  fold_left (fun r o => run_op o r) ops reg.

(** The canonical key a call tries to insert, if it is a registration. *)
Definition op_key (o : op) : option string :=
  match o with
  | Register cls custom_tag registree =>
      Some (canonicalize cls (effective_tag custom_tag registree))
  | Create _ _ _ _ => None
  end.


(** The registree of the first registration of a history that computes
    [key], if there is one. *)
Fixpoint first_registered (key : string) (history : list op) : option Callable :=
  match history with
  | [] => None
  | Register cls custom_tag registree :: history' =>
      if String.eqb (canonicalize cls (effective_tag custom_tag registree)) key
      then Some registree
      else first_registered key history'
  | Create _ _ _ _ :: history' => first_registered key history'
  end.

(** The canonical keys the registrations of a history compute. *)
Definition registered_keys (history : list op) : gset string :=
  list_to_set (omap op_key history).

(** ** Reading dictionaries *)

(** [d[k]] / [getattr(obj, k)]: the value stored under [k], if any. *)
Fixpoint dict_get (d : kwargs_t) (k : string) : option value :=
  match d with
  | [] => None
  | (k', v) :: d' => if String.eqb k' k then Some v else dict_get d' k
  end.

(** The keys of a dictionary, in order. *)
Definition dict_keys (d : kwargs_t) : list string := map fst d.

(** ** Strings in strings *)


(** [dotted s]: ["." in s] *)
Fixpoint dotted (s : string) : bool :=
  match s with
  | "" => false
  | String c s' => if Ascii.eqb c "." then true else dotted s'
  end.

(** ** A concrete registry: the shapes of the specification's scenario *)

Definition ShapeFactory : PyClass :=
  {| cls_id := 1; cls_module := "shapes"; cls_name := "ShapeFactory" |}.

Definition WidgetFactory : PyClass :=
  {| cls_id := 2; cls_module := "widgets"; cls_name := "WidgetFactory" |}.

(** [class Circle: def __init__(self, *args, **kwargs)]: an instance that
    remembers its keyword arguments. *)
Definition Circle : Callable :=
  {| callable_id := 10; callable_name := "Circle";
     callable_call := fun _ kwargs => Ok (VObj (("kind", VStr "Circle") :: kwargs)) |}.

(** [class Square: def __init__(self, side)]: one positional argument, a
    [TypeError] otherwise. *)
Definition Square : Callable :=
  {| callable_id := 11; callable_name := "Square";
     callable_call := fun args _ =>
       match args with
       | [side] => Ok (VObj [("kind", VStr "Square"); ("side", side)])
       | _ => Raise (TypeError "__init__() takes 2 positional arguments")
       end |}.

(** Another class that is also called [Square]. *)
Definition OtherSquare : Callable :=
  {| callable_id := 12; callable_name := "Square";
     callable_call := fun _ _ => Ok VNone |}.

(** [Unnamed = type("", (), {})]: a class whose [__name__] is the empty
    string. *)
Definition Unnamed : Callable :=
  {| callable_id := 13; callable_name := "";
     callable_call := fun _ _ => Ok (VObj []) |}.

(** [@ShapeFactory.register()] on [Circle], then
    [@ShapeFactory.register("sq")] on [Square], from an empty table. *)
Definition shapes_history : list op :=
  [Register ShapeFactory None Circle; Register ShapeFactory (Some "sq") Square].

Definition shapes_registry : Registry := run_ops shapes_history ∅.

(** Two class objects of one module that share their [__name__]: nested
    classes [Outer1.Factory] and [Outer2.Factory] of the module [plugins], say.
    They are distinct classes ([__qualname__] tells them apart, [__name__] does
    not). *)
Definition Outer1_Factory : PyClass :=
  {| cls_id := 3; cls_module := "plugins"; cls_name := "Factory" |}.

Definition Outer2_Factory : PyClass :=
  {| cls_id := 4; cls_module := "plugins"; cls_name := "Factory" |}.


(** Wrapped functions for [auto_field_assignment]. *)

(** [def __init__(self): self.ran = 1] *)
Definition init_no_params : WrappedFunc :=
  {| func_params := ["self"];
     func_call := fun self_ _ =>
       match setattr self_ "ran" (VInt 1) with
       | Ok self' => (self', Ok VNone)
       | Raise e => (self_, Raise e)
       end |}.

(** [def __init__(self, x, y): pass] *)
Definition init_x_y : WrappedFunc :=
  {| func_params := ["self"; "x"; "y"];
     func_call := fun self_ _ => (self_, Ok VNone) |}.

(** * Properties *)

(** ** Strings *)

Lemma str_app_nil (b : string) : "" +:+ b = b.
Proof. reflexivity. Qed.

Lemma str_app_cons (x : ascii) (a b : string) :
  String x a +:+ b = String x (a +:+ b).
Proof. reflexivity. Qed.

Lemma str_app_assoc (a b c : string) : (a +:+ b) +:+ c = a +:+ (b +:+ c).
Proof.
  induction a as [|x a IH]; [reflexivity|].
  now rewrite !str_app_cons, IH.
Qed.

Lemma str_app_inv_head (a b c : string) : a +:+ b = a +:+ c -> b = c.
Proof.
  induction a as [|x a IH]; [trivial|].
  rewrite !str_app_cons. intros H. injection H. exact IH.
Qed.

Lemma str_app_length (a b : string) :
  String.length (a +:+ b) = String.length a + String.length b.
Proof.
  induction a as [|x a IH]; [reflexivity|].
  rewrite str_app_cons. simpl. now rewrite IH.
Qed.

Lemma str_app_inv_tail (a b c : string) : a +:+ c = b +:+ c -> a = b.
Proof.
  revert b; induction a as [|x a IH]; intros [|y b] H.
  - reflexivity.
  - apply (f_equal String.length) in H.
    rewrite str_app_nil, str_app_length in H. simpl in H. lia.
  - apply (f_equal String.length) in H.
    rewrite str_app_nil, str_app_length in H. simpl in H. lia.
  - rewrite !str_app_cons in H. injection H as -> H. f_equal. now apply IH.
Qed.



Lemma dotted_app_dot (a b : string) : dotted (a +:+ "." +:+ b) = true.
Proof.
  induction a as [|x a IH]; [reflexivity|].
  rewrite str_app_cons. simpl. now destruct (Ascii.eqb x ".").
Qed.

(** A dot-free last component can be split off a dotted name in one way only. *)
Lemma qualified_name_inj (m1 m2 n1 n2 : string) :
  dotted n1 = false -> dotted n2 = false ->
  m1 +:+ "." +:+ n1 = m2 +:+ "." +:+ n2 -> m1 = m2 /\ n1 = n2.
Proof.
  intros H1 H2. revert m2.
  induction m1 as [|x m1 IH]; intros [|y m2] H.
  - split; [reflexivity|]. now apply (str_app_inv_head ".").
  - exfalso. change (String "." n1 = String y (m2 +:+ "." +:+ n2)) in H.
    injection H as _ ->. now rewrite dotted_app_dot in H1.
  - exfalso. change (String x (m1 +:+ "." +:+ n1) = String "." n2) in H.
    injection H as _ <-. now rewrite dotted_app_dot in H2.
  - rewrite !str_app_cons in H. injection H as -> H.
    destruct (IH _ H) as [-> ->]. now split.
Qed.

(** ** What [register] and [create] compute *)

Lemma register_spec (cls : PyClass) (custom_tag : option string)
    (registree : Callable) (reg : Registry) :
  let key := canonicalize cls (effective_tag custom_tag registree) in
  register cls custom_tag registree reg =
    match reg !! key with
    | None => (<[key := registree]> reg, Ok registree)
    | Some _ => (reg, Raise (AssertionError (duplicate_msg key)))
    end.
Proof.
  intros key. unfold register, bind, contains. fold key.
  destruct (reg !! key) as [c|] eqn:E.
  - rewrite bool_decide_eq_true_2 by eauto. reflexivity.
  - rewrite bool_decide_eq_false_2 by (intros [c Hc]; discriminate). reflexivity.
Qed.

Lemma create_spec (cls : PyClass) (tag : string) (args : list value)
    (kwargs : kwargs_t) (reg : Registry) :
  let key := canonicalize cls tag in
  create cls tag args kwargs reg =
    match bind_create kwargs with
    | Raise e => (reg, Raise e)
    | Ok _ =>
        match reg !! key with
        | Some c => (reg, callable_call c args kwargs)
        | None => (reg, Raise (NotImplementedError (unregistered_msg key (namespace cls))))
        end
    end.
Proof.
  intros key. unfold create, bind, of_result, contains, getitem, call. fold key.
  destruct (bind_create kwargs) as [[]|e]; [|reflexivity].
  destruct (reg !! key) as [c|] eqn:E.
  - rewrite bool_decide_eq_true_2 by eauto. now rewrite E.
  - rewrite bool_decide_eq_false_2 by (intros [c Hc]; discriminate). reflexivity.
Qed.

(** ** Histories of calls *)

Lemma create_keeps_table (cls : PyClass) (tag : string) (args : list value)
    (kwargs : kwargs_t) (reg : Registry) :
  fst (create cls tag args kwargs reg) = reg.
Proof.
  rewrite create_spec.
  destruct (bind_create kwargs); [|reflexivity]. now destruct (reg !! _).
Qed.

Lemma run_op_subseteq (o : op) (reg : Registry) : reg ⊆ run_op o reg.
Proof.
  destruct o as [cls ct c | cls tag args kw]; simpl.
  - rewrite register_spec.
    destruct (reg !! _) eqn:E; simpl; [reflexivity|].
    now apply insert_subseteq.
  - now rewrite create_keeps_table.
Qed.

Lemma run_ops_subseteq (ops : list op) (reg : Registry) : reg ⊆ run_ops ops reg.
Proof.
  revert reg. induction ops as [|o ops IH]; intros reg; simpl; [reflexivity|].
  etransitivity; [apply run_op_subseteq | apply IH].
Qed.

Lemma run_ops_lookup (ops : list op) (reg : Registry) (key : string) (c : Callable) :
  reg !! key = Some c -> run_ops ops reg !! key = Some c.
Proof. intros H. eapply lookup_weaken; [exact H | apply run_ops_subseteq]. Qed.

(** A key that no registration of a history computes is still absent after
    the history. *)
Lemma run_ops_lookup_None (ops : list op) (reg : Registry) (key : string) :
  Forall (fun o => op_key o <> Some key) ops ->
  reg !! key = None -> run_ops ops reg !! key = None.
Proof.
  intros Hops. revert reg.
  induction Hops as [|o ops Ho _ IH]; intros reg Hfree; simpl; [assumption|].
  apply IH. destruct o as [cls ct c | cls tag args kw]; simpl.
  - rewrite register_spec.
    destruct (reg !! canonicalize cls (effective_tag ct c)) eqn:E;
      simpl; [assumption|].
    rewrite lookup_insert_ne; [assumption|].
    intros Heq. apply Ho. simpl. now rewrite Heq.
  - now rewrite create_keeps_table.
Qed.

Lemma register_ok_inv (cls : PyClass) (custom_tag : option string)
    (registree r : Callable) (reg reg' : Registry) :
  register cls custom_tag registree reg = (reg', Ok r) ->
  let key := canonicalize cls (effective_tag custom_tag registree) in
  reg !! key = None /\ r = registree /\ reg' = <[key := registree]> reg.
Proof.
  rewrite register_spec. intros H key. fold key in H.
  destruct (reg !! key) eqn:E; [discriminate|].
  injection H as <- <-. auto.
Qed.

Lemma create_present (cls : PyClass) (tag : string) (c : Callable)
    (args : list value) (kwargs : kwargs_t) (reg : Registry) :
  reg !! canonicalize cls tag = Some c ->
  create cls tag args kwargs reg
  = (reg, match bind_create kwargs with
          | Ok _ => callable_call c args kwargs
          | Raise e => Raise e
          end).
Proof.
  intros H. rewrite create_spec, H. now destruct (bind_create kwargs).
Qed.


Lemma register_then_create (cls : PyClass) (custom_tag : option string)
    (c r : Callable) (reg0 reg1 : Registry) (later : list op)
    (args : list value) (kwargs : kwargs_t) :
  register cls custom_tag c reg0 = (reg1, Ok r) ->
  create cls (effective_tag custom_tag c) args kwargs (run_ops later reg1)
  = (run_ops later reg1,
     match bind_create kwargs with
     | Ok _ => callable_call c args kwargs
     | Raise e => Raise e
     end).
Proof.
  intros Hreg. apply register_ok_inv in Hreg as (_ & _ & ->).
  apply create_present, run_ops_lookup, lookup_insert_eq.
Qed.

(** ** The scenario of the specification *)

Example scenario_create_Circle :
  create ShapeFactory "Circle" [] [] shapes_registry
  = (shapes_registry, Ok (VObj [("kind", VStr "Circle")])).
Proof. vm_compute. reflexivity. Qed.

Example scenario_create_sq :
  create ShapeFactory "sq" [VInt 3] [] shapes_registry
  = (shapes_registry, Ok (VObj [("kind", VStr "Square"); ("side", VInt 3)])).
Proof. vm_compute. reflexivity. Qed.

Example scenario_create_triangle :
  create ShapeFactory "triangle" [] [] shapes_registry
  = (shapes_registry,
     Raise (NotImplementedError
       "Tag shapes.ShapeFactory.triangle is not registered in the namespace shapes.ShapeFactory")).
Proof. vm_compute. reflexivity. Qed.

Example scenario_register_sq_again :
  register ShapeFactory (Some "sq") OtherSquare shapes_registry
  = (shapes_registry,
     Raise (AssertionError
       "Duplicate tag registration found! Tag shapes.ShapeFactory.sq has already been registered")).
Proof. vm_compute. reflexivity. Qed.

(** ** The claims about the registry *)

(** A constructor that takes any keyword, called through [create] with a
    keyword named [tag]. *)
Example create_keyword_tag :
  snd (create ShapeFactory "Circle" [] [("tag", VStr "x")] shapes_registry)
  = Raise (TypeError "create() got multiple values for argument 'tag'")
  /\ callable_call Circle [] [("tag", VStr "x")]
     = Ok (VObj [("kind", VStr "Circle"); ("tag", VStr "x")]).
Proof. split; vm_compute; reflexivity. Qed.




(** C2. When the canonical key of a registration is already in the table, the
    registration raises the duplicate-registration [AssertionError], naming the
    key, at registration time; the table is left as it was, so the key still
    maps to the first registree and [create] still calls that one (with any
    arguments that bind, see [bind_create]). *)
Theorem register_duplicate (cls : PyClass) (custom_tag : option string)
    (first second : Callable) (reg : Registry) :
  let key := canonicalize cls (effective_tag custom_tag second) in
  reg !! key = Some first ->
  register cls custom_tag second reg
    = (reg, Raise (AssertionError (duplicate_msg key)))
  /\ fst (register cls custom_tag second reg) !! key = Some first
  /\ forall args kwargs,
       create cls (effective_tag custom_tag second) args kwargs
         (fst (register cls custom_tag second reg))
       = (reg, match bind_create kwargs with
               | Ok _ => callable_call first args kwargs
               | Raise e => Raise e
               end).
Proof.
  intros key Hkey.
  assert (Hr : register cls custom_tag second reg
               = (reg, Raise (AssertionError (duplicate_msg key)))).
  { rewrite register_spec. fold key. now rewrite Hkey. }
  rewrite Hr. simpl. repeat split; [assumption|].
  intros args kwargs. now apply create_present.
Qed.

Lemma register_duplicate_witness :
  register ShapeFactory (Some "sq") OtherSquare shapes_registry
    = (shapes_registry,
       Raise (AssertionError (duplicate_msg "shapes.ShapeFactory.sq")))
  /\ fst (register ShapeFactory (Some "sq") OtherSquare shapes_registry)
       !! "shapes.ShapeFactory.sq" = Some Square
  /\ forall args kwargs,
       create ShapeFactory "sq" args kwargs
         (fst (register ShapeFactory (Some "sq") OtherSquare shapes_registry))
       = (shapes_registry,
          match bind_create kwargs with
          | Ok _ => callable_call Square args kwargs
          | Raise e => Raise e
          end).
Proof.
  apply (register_duplicate ShapeFactory (Some "sq") Square OtherSquare shapes_registry).
  vm_compute. reflexivity.
Defined.




(** In terms of histories: starting from the empty table, if no registration
    made so far computed the canonical key of [T] for the class, [create(T)]
    raises, provided its keywords bind. *)
Lemma create_never_registered (cls : PyClass) (T : string) (history : list op)
    (args : list value) (kwargs : kwargs_t) :
  Forall (fun o => op_key o <> Some (canonicalize cls T)) history ->
  bind_create kwargs = Ok tt ->
  snd (create cls T args kwargs (run_ops history ∅))
  = Raise (NotImplementedError
             (unregistered_msg (canonicalize cls T) (namespace cls))).
Proof.
  intros Hhist Hbind. rewrite create_spec, Hbind.
  now rewrite (run_ops_lookup_None history ∅ _ Hhist (lookup_empty _)).
Qed.

(** C4. The code at the failing input.  [Outer1_Factory] and [Outer2_Factory]
    are distinct classes, but [namespace] reads only [__module__] and
    [__name__], which they share: both get the namespace ["plugins.Factory"]
    and, for every tag, one and the same canonical key.  Registering under the
    same tag through both collides in the shared table: the second registration
    raises the duplicate-registration error.  The docstring of the class says
    that each concrete factory has a namespace of its own that prevents name
    collisions. *)
Theorem distinct_classes_share_key :
  Outer1_Factory <> Outer2_Factory
  /\ namespace Outer1_Factory = "plugins.Factory"
  /\ namespace Outer2_Factory = "plugins.Factory"
  /\ (forall T : string,
        canonicalize Outer1_Factory T = canonicalize Outer2_Factory T)
  /\ register Outer2_Factory None OtherSquare
       (fst (register Outer1_Factory None Square ∅))
     = (fst (register Outer1_Factory None Square ∅),
        Raise (AssertionError (duplicate_msg "plugins.Factory.Square"))).
Proof.
  split; [discriminate|]. split; [reflexivity|]. split; [reflexivity|].
  split; [reflexivity|]. vm_compute. reflexivity.
Qed.

(** Hence distinct classes do not always have distinct canonical keys. *)
Lemma canonicalize_distinct_classes_collide :
  ~ (forall (A B : PyClass) (T : string),
        A <> B -> canonicalize A T <> canonicalize B T).
Proof.
  intros H.
  apply (H Outer1_Factory Outer2_Factory "Circle"); [discriminate | reflexivity].
Qed.

Example same_namespace_collision :
  snd (register Outer2_Factory None OtherSquare
         (fst (register Outer1_Factory None Square ∅)))
  = Raise (AssertionError
      "Duplicate tag registration found! Tag plugins.Factory.Square has already been registered").
Proof. vm_compute. reflexivity. Qed.

(** A class name with a dot in it (only [type("b.c", ...)] makes one) can
    also borrow the namespace of another module. *)
Example dotted_name_same_namespace :
  namespace {| cls_id := 5; cls_module := "a"; cls_name := "b.c" |}
  = namespace {| cls_id := 6; cls_module := "a.b"; cls_name := "c" |}.
Proof. reflexivity. Qed.

Lemma namespace_inj (A B : PyClass) :
  dotted (cls_name A) = false -> dotted (cls_name B) = false ->
  namespace A = namespace B ->
  cls_module A = cls_module B /\ cls_name A = cls_name B.
Proof. intros HA HB. unfold namespace. now apply qualified_name_inj. Qed.

Lemma canonicalize_namespace (A B : PyClass) (T : string) :
  canonicalize A T = canonicalize B T -> namespace A = namespace B.
Proof.
  unfold canonicalize. rewrite <- !str_app_assoc.
  intros H. apply str_app_inv_tail in H. now apply str_app_inv_tail in H.
Qed.

(** X10. For two classes whose names are plain identifiers (no ["."])
    and that differ in [__module__] or in [__name__], the namespaces differ and
    so do the canonical keys of every tag [T]: registering under tag [T] in [A]
    does not occupy the key of [T] under [B] in the shared table, so a
    registration under tag [T] in [B] that would succeed before still succeeds
    after. *)
Theorem canonicalize_distinct_classes (A B : PyClass) (T : string) :
  dotted (cls_name A) = false -> dotted (cls_name B) = false ->
  (cls_module A, cls_name A) <> (cls_module B, cls_name B) ->
  namespace A <> namespace B
  /\ canonicalize A T <> canonicalize B T
  /\ forall (tagA tagB : option string) (CA CB : Callable) (reg : Registry),
       effective_tag tagA CA = T -> effective_tag tagB CB = T ->
       reg !! canonicalize B T = None ->
       let reg' := fst (register A tagA CA reg) in
       register B tagB CB reg' = (<[canonicalize B T := CB]> reg', Ok CB).
Proof.
  intros HA HB Hne.
  assert (Hns : namespace A <> namespace B).
  { intros E. apply Hne. destruct (namespace_inj A B HA HB E) as [-> ->]. reflexivity. }
  assert (Hkey : canonicalize A T <> canonicalize B T).
  { intros E. apply Hns. now apply canonicalize_namespace with T. }
  split; [assumption|]. split; [assumption|].
  intros tagA tagB CA CB reg HtA HtB Hfree reg'.
  assert (Hfree' : reg' !! canonicalize B T = None).
  { subst reg'. rewrite register_spec, HtA.
    destruct (reg !! canonicalize A T) eqn:E; simpl; [assumption|].
    now rewrite lookup_insert_ne. }
  rewrite register_spec, HtB. now rewrite Hfree'.
Qed.

Lemma canonicalize_distinct_classes_witness :
  namespace ShapeFactory <> namespace WidgetFactory
  /\ canonicalize ShapeFactory "Square" <> canonicalize WidgetFactory "Square"
  /\ forall (tagA tagB : option string) (CA CB : Callable) (reg : Registry),
       effective_tag tagA CA = "Square" -> effective_tag tagB CB = "Square" ->
       reg !! canonicalize WidgetFactory "Square" = None ->
       let reg' := fst (register ShapeFactory tagA CA reg) in
       register WidgetFactory tagB CB reg'
       = (<[canonicalize WidgetFactory "Square" := CB]> reg', Ok CB).
Proof.
  apply (canonicalize_distinct_classes ShapeFactory WidgetFactory "Square");
    [reflexivity | reflexivity | discriminate].
Defined.

Example distinct_classes_same_tag :
  snd (register WidgetFactory None OtherSquare
         (fst (register ShapeFactory None Square ∅)))
  = Ok OtherSquare.
Proof. vm_compute. reflexivity. Qed.

(** C5. [canonicalize(T)] is the namespace, then ["."], then [T]; hence two
    different tags of one class have different canonical keys. *)
Theorem canonicalize_concat (cls : PyClass) (T1 T2 : string) :
  canonicalize cls T1 = namespace cls +:+ "." +:+ T1
  /\ (T1 <> T2 -> canonicalize cls T1 <> canonicalize cls T2).
Proof.
  split; [reflexivity|].
  intros Hne E. apply Hne. unfold canonicalize in E.
  apply str_app_inv_head in E. now apply str_app_inv_head in E.
Qed.

Lemma canonicalize_concat_witness :
  canonicalize ShapeFactory "Circle" = namespace ShapeFactory +:+ "." +:+ "Circle"
  /\ ("Circle" <> "sq" -> canonicalize ShapeFactory "Circle" <> canonicalize ShapeFactory "sq").
Proof. exact (canonicalize_concat ShapeFactory "Circle" "sq"). Defined.

(** C6. Registered with no custom tag, a constructor goes under
    [default_tag(C)], which is its [__name__]; from then on, after any further
    calls on the module, [create(default_tag(C), ...)] calls [C] (with any
    arguments that bind, see [bind_create]). *)
Theorem register_default_tag (cls : PyClass) (C r : Callable)
    (reg reg' : Registry) :
  register cls None C reg = (reg', Ok r) ->
  default_tag C = callable_name C
  /\ reg !! canonicalize cls (default_tag C) = None
  /\ reg' = <[canonicalize cls (default_tag C) := C]> reg
  /\ forall (later : list op) (args : list value) (kwargs : kwargs_t),
       create cls (default_tag C) args kwargs (run_ops later reg')
       = (run_ops later reg',
          match bind_create kwargs with
          | Ok _ => callable_call C args kwargs
          | Raise e => Raise e
          end).
Proof.
  intros Hreg. split; [reflexivity|].
  pose proof (register_then_create cls None C r reg reg') as Hcreate.
  apply register_ok_inv in Hreg as Hinv. destruct Hinv as (Hfree & _ & Hins).
  simpl in Hfree, Hins. repeat split; try assumption.
  intros later args kwargs. now apply Hcreate.
Qed.

Lemma register_default_tag_witness :
  default_tag Circle = callable_name Circle
  /\ (∅ : Registry) !! canonicalize ShapeFactory (default_tag Circle) = None
  /\ <["shapes.ShapeFactory.Circle" := Circle]> ∅
     = <[canonicalize ShapeFactory (default_tag Circle) := Circle]> (∅ : Registry)
  /\ forall (later : list op) (args : list value) (kwargs : kwargs_t),
       create ShapeFactory (default_tag Circle) args kwargs
         (run_ops later (<["shapes.ShapeFactory.Circle" := Circle]> ∅))
       = (run_ops later (<["shapes.ShapeFactory.Circle" := Circle]> ∅),
          match bind_create kwargs with
          | Ok _ => callable_call Circle args kwargs
          | Raise e => Raise e
          end).
Proof.
  apply (register_default_tag ShapeFactory Circle Circle ∅).
  vm_compute. reflexivity.
Defined.

(** C7. The decorator made by [register(custom_tag)] hands back the very
    constructor it was applied to: whenever it returns, the value returned is
    [C] and the table is the old one with [C] inserted under its canonical key;
    and it does return whenever that key is free. *)
Theorem register_returns_registree (cls : PyClass) (custom_tag : option string)
    (C : Callable) (reg : Registry) :
  let key := canonicalize cls (effective_tag custom_tag C) in
  (forall reg' r, register cls custom_tag C reg = (reg', Ok r) ->
                  r = C /\ reg' = <[key := C]> reg)
  /\ (reg !! key = None ->
      register cls custom_tag C reg = (<[key := C]> reg, Ok C)).
Proof.
  intros key. split.
  - intros reg' r H. apply register_ok_inv in H as (_ & -> & ->). now split.
  - intros Hfree. rewrite register_spec. fold key. now rewrite Hfree.
Qed.

Lemma register_returns_registree_witness :
  register ShapeFactory (Some "sq") Square ∅
  = (<["shapes.ShapeFactory.sq" := Square]> ∅, Ok Square).
Proof.
  apply (register_returns_registree ShapeFactory (Some "sq") Square ∅).
  vm_compute. reflexivity.
Defined.

(** C8. The table only grows.  A [register] that returns found its key absent
    and leaves the old table with exactly that one key added (one more entry,
    every old entry as it was); a [register] that raises leaves the table as it
    was.  [create] leaves the table as it was, whether it returns or raises.
    Hence over any history of calls no entry is ever removed or changed. *)
Theorem registry_insert_only :
  (forall cls custom_tag C (reg : Registry),
     let key := canonicalize cls (effective_tag custom_tag C) in
     match register cls custom_tag C reg with
     | (reg', Ok _) =>
         reg !! key = None /\ reg' = <[key := C]> reg
         /\ dom reg' = {[key]} ∪ dom reg
         /\ size reg' = S (size reg)
         /\ forall k, k <> key -> reg' !! k = reg !! k
     | (reg', Raise _) => reg' = reg
     end)
  /\ (forall cls tag args kwargs (reg : Registry),
        fst (create cls tag args kwargs reg) = reg)
  /\ (forall later (reg : Registry) k c,
        reg !! k = Some c -> run_ops later reg !! k = Some c)
  /\ (forall later (reg : Registry), dom reg ⊆ dom (run_ops later reg)).
Proof.
  repeat split.
  - intros cls custom_tag C reg key. rewrite register_spec. fold key.
    destruct (reg !! key) eqn:E; [reflexivity|].
    repeat split.
    + apply dom_insert_L.
    + now apply map_size_insert_None.
    + intros k Hk. now apply lookup_insert_ne.
  - apply create_keeps_table.
  - intros later reg k c. apply run_ops_lookup.
  - intros later reg. apply subseteq_dom, run_ops_subseteq.
Qed.

Lemma registry_insert_only_witness :
  run_ops [Register ShapeFactory (Some "sq") Square;
           Register ShapeFactory (Some "sq") OtherSquare;
           Create ShapeFactory "triangle" [] []]
    (<["shapes.ShapeFactory.Circle" := Circle]> ∅)
    !! "shapes.ShapeFactory.Circle" = Some Circle.
Proof.
  apply (proj1 (proj2 (proj2 registry_insert_only))).
  vm_compute. reflexivity.
Defined.

(** C9, as stated, fails: for a constructor whose own [__name__] is empty the
    default tag is the empty tag, so [register("")] does register under the
    empty tag. *)
Lemma register_empty_custom_tag_unnamed :
  ~ (forall (cls : PyClass) (C : Callable) (reg : Registry),
       reg !! canonicalize cls "" = None ->
       fst (register cls (Some "") C reg) !! canonicalize cls "" = None).
Proof.
  intros H. specialize (H ShapeFactory Unnamed ∅ (lookup_empty _)).
  vm_compute in H. discriminate H.
Qed.

(** C9, amended. [register("")] does exactly what [register()] does: the empty
    string is falsy, so the tag is [default_tag] of the constructor.  The
    constructor goes into the table under the canonical key of its default tag
    if that key is free, and the call raises the duplicate-registration error
    for that key if it is taken.  Unless the constructor's own [__name__] is
    empty, that key is not the key of the empty tag, whose entry stays as it
    was. *)
Theorem register_empty_custom_tag (cls : PyClass) (C : Callable) (reg : Registry) :
  let key := canonicalize cls (default_tag C) in
  register cls (Some "") C reg = register cls None C reg
  /\ register cls (Some "") C reg =
       match reg !! key with
       | None => (<[key := C]> reg, Ok C)
       | Some _ => (reg, Raise (AssertionError (duplicate_msg key)))
       end
  /\ (callable_name C <> "" ->
      key <> canonicalize cls ""
      /\ fst (register cls (Some "") C reg) !! canonicalize cls ""
         = reg !! canonicalize cls "").
Proof.
  intros key. split; [reflexivity|]. split.
  - rewrite register_spec. reflexivity.
  - intros Hname.
    assert (Hne : key <> canonicalize cls "").
    { intros Heq. apply Hname. unfold key, canonicalize in Heq.
      apply str_app_inv_head in Heq. now apply str_app_inv_head in Heq. }
    split; [exact Hne|]. rewrite register_spec.
    change (canonicalize cls (effective_tag (Some "") C)) with key.
    destruct (reg !! key) eqn:E; simpl; [reflexivity|].
    now rewrite lookup_insert_ne.
Qed.

Lemma register_empty_custom_tag_witness :
  canonicalize ShapeFactory (default_tag Circle) <> canonicalize ShapeFactory ""
  /\ fst (register ShapeFactory (Some "") Circle ∅) !! canonicalize ShapeFactory ""
     = (∅ : Registry) !! canonicalize ShapeFactory "".
Proof.
  apply (register_empty_custom_tag ShapeFactory Circle ∅). discriminate.
Defined.

Example register_empty_custom_tag_key :
  fst (register ShapeFactory (Some "") Circle ∅)
  = <["shapes.ShapeFactory.Circle" := Circle]> ∅.
Proof. vm_compute. reflexivity. Qed.

(** ** The claim about [auto_field_assignment] *)

Lemma dict_set_not_nil (d : kwargs_t) (k : string) (v : value) : dict_set d k v <> [].
Proof. destruct d as [|[k' v'] d]; simpl; [|destruct (String.eqb k' k)]; discriminate. Qed.

Lemma merge_args_kwargs_not_nil (params : list string) (rest : list value)
    (kwargs : kwargs_t) :
  kwargs <> [] -> merge_args params rest kwargs <> [].
Proof.
  unfold merge_args. generalize (combine params rest) as pairs.
  intros pairs. revert kwargs.
  induction pairs as [|[n v] pairs IH]; intros kwargs H; simpl; [assumption|].
  apply IH, dict_set_not_nil.
Qed.

Lemma merge_args_positional_not_nil (params : list string) (rest : list value)
    (kwargs : kwargs_t) :
  params <> [] -> rest <> [] -> merge_args params rest kwargs <> [].
Proof.
  destruct params as [|p params]; [congruence|].
  destruct rest as [|a rest]; [congruence|]. intros _ _.
  unfold merge_args. simpl.
  apply (merge_args_kwargs_not_nil params rest), dict_set_not_nil.
Qed.

(** With [special_items = None] the loop raises at its first item, before any
    [setattr]. *)
Lemma assign_fields_None (self_ : value) (items : kwargs_t) :
  assign_fields None self_ items =
    match items with
    | [] => (self_, Ok tt)
    | _ :: _ => (self_, Raise (TypeError "argument of type 'NoneType' is not iterable"))
    end.
Proof. destruct items as [|[n v] items]; reflexivity. Qed.

Example excess_positional_runs_func :
  prepare None init_no_params [VObj []; VInt 5] [] = Called (VObj []) []
  /\ auto_field_assignment None init_no_params [VObj []; VInt 5] []
     = (Some (VObj [("ran", VInt 1)]), Ok VNone).
Proof. split; reflexivity. Qed.

(** C10, as stated, fails: a call may pass positional arguments after [self] to
    a function that has no parameter but [self]; [zip] pairs them with nothing,
    the keyword dictionary stays empty, no membership test is made and the
    wrapped function runs. *)
Lemma auto_field_assignment_default_may_run :
  ~ (forall (func : WrappedFunc) (args : list value) (kwargs : kwargs_t),
       tail args <> [] \/ kwargs <> [] ->
       exists self_ e, prepare None func args kwargs = Failed self_ e).
Proof.
  intros H.
  destruct (H init_no_params [VObj []; VInt 5] []) as (self_ & e & Hp).
  - left. discriminate.
  - discriminate Hp.
Qed.

(** C10, amended. With the default [special_items = None], every call that
    passes at least one keyword argument, or at least one positional argument
    after [self] to a function that has a parameter other than [self], fails
    before the wrapped function is called and before any attribute is set: with
    the [TypeError] of the membership test in [None] when there is a first
    positional argument, with an [IndexError] when there is none.  The outcome
    does not depend on what the wrapped function would do. *)
Theorem auto_field_assignment_default_fails (func : WrappedFunc)
    (args : list value) (kwargs : kwargs_t) :
  kwargs <> [] \/ (parameters func <> [] /\ tail args <> []) ->
  exists e,
    prepare None func args kwargs = Failed (head args) e
    /\ auto_field_assignment None func args kwargs = (head args, Raise e)
    /\ e = match args with
           | [] => IndexError "tuple index out of range"
           | _ :: _ => TypeError "argument of type 'NoneType' is not iterable"
           end.
Proof.
  intros H. unfold auto_field_assignment, decorated.
  destruct args as [|self_ rest].
  - eexists. repeat split.
  - assert (Hm : merge_args (parameters func) rest kwargs <> []).
    { destruct H as [H | [Hp Hr]].
      - now apply merge_args_kwargs_not_nil.
      - now apply merge_args_positional_not_nil. }
    unfold prepare. rewrite assign_fields_None.
    destruct (merge_args (parameters func) rest kwargs); [congruence|].
    eexists. repeat split.
Qed.

Lemma auto_field_assignment_default_fails_witness :
  exists e,
    prepare None init_x_y [VObj []; VInt 1] [("y", VInt 2)] = Failed (Some (VObj [])) e
    /\ auto_field_assignment None init_x_y [VObj []; VInt 1] [("y", VInt 2)]
       = (Some (VObj []), Raise e)
    /\ e = TypeError "argument of type 'NoneType' is not iterable".
Proof.
  apply (auto_field_assignment_default_fails init_x_y [VObj []; VInt 1] [("y", VInt 2)]).
  left. discriminate.
Defined.

(** With a list of special items the same call goes through: [x] and [y] are
    set on the object, [y] is skipped when it is special. *)
Example auto_field_assignment_with_items :
  prepare (Some []) init_x_y [VObj []; VInt 1] [("y", VInt 2)]
  = Called (VObj [("y", VInt 2); ("x", VInt 1)]) [("y", VInt 2); ("x", VInt 1)]
  /\ prepare (Some ["y"]) init_x_y [VObj []; VInt 1] [("y", VInt 2)]
     = Called (VObj [("x", VInt 1)]) [("y", VInt 2); ("x", VInt 1)].
Proof. split; reflexivity. Qed.

(** * Further properties of the code *)

Set Warnings "-clear-no-such-hyp".

(** ** The table as a function of the history *)

Lemma run_op_register (cls : PyClass) (custom_tag : option string)
    (registree : Callable) (reg : Registry) :
  let key := canonicalize cls (effective_tag custom_tag registree) in
  run_op (Register cls custom_tag registree) reg =
    match reg !! key with
    | None => <[key := registree]> reg
    | Some _ => reg
    end.
Proof.
  intros key. simpl. rewrite register_spec. fold key. now destruct (reg !! key).
Qed.

(** X1. First registration wins: after any history of calls, a key that was
    in the table before still maps to what it mapped to, and any other key maps
    to the registree of the first registration of the history that computed it
    (to nothing if there was none). *)
Theorem run_ops_first_wins (history : list op) (reg : Registry) (key : string) :
  run_ops history reg !! key =
    match reg !! key with
    | Some c => Some c
    | None => first_registered key history
    end.
Proof.
  revert reg. induction history as [|o history IH]; intros reg; simpl.
  - now destruct (reg !! key).
  - rewrite IH. destruct o as [cls ct c | cls tag args kw].
    + rewrite run_op_register.
      destruct (String.eqb_spec (canonicalize cls (effective_tag ct c)) key) as [->|Hne].
      * destruct (reg !! key) eqn:E; [now rewrite E|].
        now rewrite lookup_insert_eq.
      * destruct (reg !! canonicalize cls (effective_tag ct c)); [reflexivity|].
        now rewrite lookup_insert_ne.
    + simpl. now rewrite create_keeps_table.
Qed.

Lemma run_op_dom (o : op) (reg : Registry) :
  dom (run_op o reg) = dom reg ∪ list_to_set (omap op_key [o]).
Proof.
  destruct o as [cls ct c | cls tag args kw].
  - rewrite run_op_register. simpl.
    destruct (reg !! canonicalize cls (effective_tag ct c)) eqn:E.
    + apply (elem_of_dom_2 (D := gset string)) in E. set_solver.
    + rewrite dom_insert_L. set_solver.
  - simpl. rewrite create_keeps_table. set_solver.
Qed.

(** X2. The keys of the table after a history are the keys it had before
    together with the canonical key of every registration of the history,
    whether that registration returned or raised; [create] adds none. *)
Theorem run_ops_dom (history : list op) (reg : Registry) :
  dom (run_ops history reg) = dom reg ∪ registered_keys history.
Proof.
  unfold registered_keys. revert reg.
  induction history as [|o history IH]; intros reg; simpl.
  - set_solver.
  - rewrite IH, run_op_dom. destruct o; simpl; set_solver.
Qed.

(** X3. A registration cannot be repeated: whatever the table was and whether
    or not the first attempt returned, running the same registration again
    raises the duplicate-registration [AssertionError] and changes nothing. *)
Theorem register_twice_raises (cls : PyClass) (custom_tag : option string)
    (C : Callable) (reg : Registry) :
  let key := canonicalize cls (effective_tag custom_tag C) in
  let reg1 := fst (register cls custom_tag C reg) in
  register cls custom_tag C reg1
  = (reg1, Raise (AssertionError (duplicate_msg key))).
Proof.
  intros key reg1. rewrite register_spec. fold key.
  assert (H : is_Some (reg1 !! key)).
  { subst reg1. rewrite register_spec. fold key.
    destruct (reg !! key) eqn:E; simpl; [now rewrite E|].
    rewrite lookup_insert_eq. eauto. }
  destruct H as [c ->]. reflexivity.
Qed.

(** X4. Registrations under different canonical keys commute: in either order
    they leave the same table, and each of them returns or raises the same. *)
Theorem register_commute (clsA clsB : PyClass) (tagA tagB : option string)
    (CA CB : Callable) (reg : Registry) :
  canonicalize clsA (effective_tag tagA CA) <> canonicalize clsB (effective_tag tagB CB) ->
  let regA := fst (register clsA tagA CA reg) in
  let regB := fst (register clsB tagB CB reg) in
  fst (register clsB tagB CB regA) = fst (register clsA tagA CA regB)
  /\ snd (register clsA tagA CA regB) = snd (register clsA tagA CA reg)
  /\ snd (register clsB tagB CB regA) = snd (register clsB tagB CB reg).
Proof.
  intros Hne regA regB. subst regA regB. rewrite !register_spec.
  set (kA := canonicalize clsA (effective_tag tagA CA)) in *.
  set (kB := canonicalize clsB (effective_tag tagB CB)) in *.
  destruct (reg !! kA) eqn:EA; destruct (reg !! kB) eqn:EB; simpl;
    rewrite ?EA, ?EB, ?lookup_insert_ne, ?EA, ?EB by congruence; simpl;
    repeat split.
  now apply insert_insert_ne.
Qed.

Lemma register_commute_witness :
  fst (register ShapeFactory None Circle (fst (register ShapeFactory (Some "sq") Square ∅)))
  = fst (register ShapeFactory (Some "sq") Square (fst (register ShapeFactory None Circle ∅)))
  /\ snd (register ShapeFactory (Some "sq") Square (fst (register ShapeFactory None Circle ∅)))
     = snd (register ShapeFactory (Some "sq") Square ∅)
  /\ snd (register ShapeFactory None Circle (fst (register ShapeFactory (Some "sq") Square ∅)))
     = snd (register ShapeFactory None Circle ∅).
Proof.
  apply (register_commute ShapeFactory ShapeFactory (Some "sq") None Square Circle ∅).
  vm_compute. discriminate.
Defined.

(** ** Tags are not validated *)




(** ** Dictionaries in insertion order *)

Lemma dict_get_set_eq (d : kwargs_t) (k : string) (v : value) :
  dict_get (dict_set d k v) k = Some v.
Proof.
  induction d as [|[k' v'] d IH]; simpl.
  - now rewrite String.eqb_refl.
  - destruct (String.eqb k' k) eqn:E; simpl; now rewrite E.
Qed.

Lemma dict_get_set_ne (d : kwargs_t) (k k' : string) (v : value) :
  k <> k' -> dict_get (dict_set d k v) k' = dict_get d k'.
Proof.
  intros Hne. induction d as [|[k0 v0] d IH]; simpl.
  - destruct (String.eqb_spec k k'); congruence.
  - destruct (String.eqb_spec k0 k) as [->|Hk]; simpl.
    + destruct (String.eqb_spec k k'); congruence.
    + now rewrite IH.
Qed.

Lemma dict_get_not_in (d : kwargs_t) (k : string) :
  ~ In k (dict_keys d) -> dict_get d k = None.
Proof.
  induction d as [|[k0 v0] d IH]; simpl; [reflexivity|]. intros Hnot.
  destruct (String.eqb_spec k0 k) as [->|Hk]; [tauto|]. apply IH. tauto.
Qed.

Lemma in_keys_dict_set (d : kwargs_t) (k x : string) (v : value) :
  In x (dict_keys (dict_set d k v)) -> x = k \/ In x (dict_keys d).
Proof.
  induction d as [|[k0 v0] d IH]; simpl.
  - intros [<-|[]]. now left.
  - destruct (String.eqb_spec k0 k) as [->|Hk]; simpl.
    + intros [<-|H]; auto.
    + intros [<-|H]; [auto|]. destruct (IH H); auto.
Qed.

(** Assignments keep the keys of a dictionary distinct. *)
Lemma dict_set_NoDup (d : kwargs_t) (k : string) (v : value) :
  List.NoDup (dict_keys d) -> List.NoDup (dict_keys (dict_set d k v)).
Proof.
  induction d as [|[k0 v0] d IH]; simpl; intros Hd.
  - constructor; [intros [] | constructor].
  - apply List.NoDup_cons_iff in Hd as [Hnot Hd].
    destruct (String.eqb_spec k0 k) as [->|Hk]; simpl.
    + now constructor.
    + constructor; [|now apply IH].
      intros Hin. apply in_keys_dict_set in Hin as [->|Hin]; tauto.
Qed.

Lemma merge_args_NoDup (params : list string) (rest : list value)
    (kwargs : kwargs_t) :
  List.NoDup (dict_keys kwargs) ->
  List.NoDup (dict_keys (merge_args params rest kwargs)).
Proof.
  unfold merge_args. generalize (combine params rest) as pairs.
  intros pairs. revert kwargs.
  induction pairs as [|[n v] pairs IH]; intros kwargs H; simpl; [assumption|].
  apply IH. now apply dict_set_NoDup.
Qed.

(** ** What [decorated] does when it is given a list of special items *)

(** The loop over [kwargs.items()] on an object never raises, and leaves each
    attribute as the items say. *)
Lemma assign_fields_obj (items : list string) (merged attrs : kwargs_t) :
  List.NoDup (dict_keys merged) ->
  exists attrs',
    assign_fields (Some items) (VObj attrs) merged = (VObj attrs', Ok tt)
    /\ forall name,
         dict_get attrs' name =
           match dict_get merged name with
           | Some v => if existsb (String.eqb name) items
                       then dict_get attrs name else Some v
           | None => dict_get attrs name
           end.
Proof.
  revert attrs. induction merged as [|[n v] merged IH]; intros attrs Hnd.
  - exists attrs. split; reflexivity.
  - simpl in Hnd. apply List.NoDup_cons_iff in Hnd as [Hnot Hnd].
    simpl. destruct (existsb (String.eqb n) items) eqn:Hsp.
    + destruct (IH attrs Hnd) as (attrs' & Hrun & Hget).
      exists attrs'. split; [exact Hrun|]. intros name. rewrite Hget.
      destruct (String.eqb_spec n name) as [<-|Hne]; [|reflexivity].
      now rewrite (dict_get_not_in merged n Hnot), Hsp.
    + destruct (IH (dict_set attrs n v) Hnd) as (attrs' & Hrun & Hget).
      exists attrs'. split; [exact Hrun|]. intros name. rewrite Hget.
      destruct (String.eqb_spec n name) as [<-|Hne].
      * now rewrite (dict_get_not_in merged n Hnot), Hsp, dict_get_set_eq.
      * now rewrite dict_get_set_ne.
Qed.

(** X6. Given a list of special items and an object as [self], [decorated]
    does not fail before the call: it calls the wrapped function on the object
    with all the merged keyword arguments, special ones included, and returns
    [None] or raises what the function raises.  By then every merged argument
    that is not special has been set as an attribute of the object, and every
    other attribute is as it was. *)
Theorem decorated_assigns_fields (items : list string) (func : WrappedFunc)
    (attrs : kwargs_t) (rest : list value) (kwargs : kwargs_t) :
  List.NoDup (dict_keys kwargs) ->
  let merged := merge_args (parameters func) rest kwargs in
  exists attrs',
    prepare (Some items) func (VObj attrs :: rest) kwargs
    = Called (VObj attrs') merged
    /\ auto_field_assignment (Some items) func (VObj attrs :: rest) kwargs
       = (Some (fst (func_call func (VObj attrs') merged)),
          match snd (func_call func (VObj attrs') merged) with
          | Ok _ => Ok VNone
          | Raise e => Raise e
          end)
    /\ forall name,
         dict_get attrs' name =
           match dict_get merged name with
           | Some v => if existsb (String.eqb name) items
                       then dict_get attrs name else Some v
           | None => dict_get attrs name
           end.
Proof.
  intros Hnd merged.
  destruct (assign_fields_obj items merged attrs) as (attrs' & Hrun & Hget).
  { now apply merge_args_NoDup. }
  assert (Hp : prepare (Some items) func (VObj attrs :: rest) kwargs
               = Called (VObj attrs') merged).
  { unfold prepare. fold merged. now rewrite Hrun. }
  exists attrs'. split; [exact Hp|]. split; [|exact Hget].
  unfold auto_field_assignment, decorated. rewrite Hp.
  now destruct (func_call func (VObj attrs') merged) as [s [r|e]].
Qed.

Lemma decorated_assigns_fields_witness :
  exists attrs',
    prepare (Some ["y"]) init_x_y [VObj [("z", VInt 0)]; VInt 1] [("y", VInt 2)]
    = Called (VObj attrs')
        (merge_args (parameters init_x_y) [VInt 1] [("y", VInt 2)])
    /\ auto_field_assignment (Some ["y"]) init_x_y [VObj [("z", VInt 0)]; VInt 1]
         [("y", VInt 2)]
       = (Some (fst (func_call init_x_y (VObj attrs')
                       (merge_args (parameters init_x_y) [VInt 1] [("y", VInt 2)]))),
          match snd (func_call init_x_y (VObj attrs')
                       (merge_args (parameters init_x_y) [VInt 1] [("y", VInt 2)])) with
          | Ok _ => Ok VNone
          | Raise e => Raise e
          end)
    /\ forall name,
         dict_get attrs' name =
           match dict_get (merge_args (parameters init_x_y) [VInt 1] [("y", VInt 2)]) name with
           | Some v => if existsb (String.eqb name) ["y"]
                       then dict_get [("z", VInt 0)] name else Some v
           | None => dict_get [("z", VInt 0)] name
           end.
Proof.
  apply (decorated_assigns_fields ["y"] init_x_y [("z", VInt 0)] [VInt 1] [("y", VInt 2)]).
  simpl. constructor; [intros [] | constructor].
Defined.

Lemma fold_dict_set_get (pairs kwargs : kwargs_t) (name : string) :
  List.NoDup (dict_keys pairs) ->
  dict_get (fold_left (fun kw nv => dict_set kw (fst nv) (snd nv)) pairs kwargs) name
  = match dict_get pairs name with
    | Some v => Some v
    | None => dict_get kwargs name
    end.
Proof.
  revert kwargs. induction pairs as [|[n v] pairs IH]; intros kwargs Hnd; simpl.
  - reflexivity.
  - simpl in Hnd. apply List.NoDup_cons_iff in Hnd as [Hnot Hnd].
    rewrite (IH _ Hnd).
    destruct (String.eqb_spec n name) as [<-|Hne].
    + now rewrite (dict_get_not_in pairs n Hnot), dict_get_set_eq.
    + now rewrite dict_get_set_ne.
Qed.

Lemma combine_keys_NoDup (params : list string) (rest : list value) :
  List.NoDup params -> List.NoDup (dict_keys (combine params rest)).
Proof.
  revert rest. induction params as [|p params IH]; intros rest Hnd; simpl.
  - constructor.
  - apply List.NoDup_cons_iff in Hnd as [Hnot Hnd].
    destruct rest as [|a rest]; simpl; constructor; [|now apply IH].
    intros Hin. apply Hnot. unfold dict_keys in Hin.
    apply in_map_iff in Hin as [[x y] [<- Hin]]. now apply in_combine_l in Hin.
Qed.

(** X7. What the wrapped function receives under a name: the positional
    argument that [zip] pairs with that parameter if there is one, the caller's
    keyword argument otherwise.  A positional argument thus replaces a keyword
    argument of the same name without any error. *)
Theorem merge_args_lookup (func : WrappedFunc) (rest : list value)
    (kwargs : kwargs_t) (name : string) :
  List.NoDup (func_params func) ->
  dict_get (merge_args (parameters func) rest kwargs) name
  = match dict_get (combine (parameters func) rest) name with
    | Some v => Some v
    | None => dict_get kwargs name
    end.
Proof.
  intros Hnd. unfold merge_args. apply fold_dict_set_get, combine_keys_NoDup.
  unfold parameters. now apply NoDup_ListNoDup, NoDup_filter, NoDup_ListNoDup.
Qed.

Lemma merge_args_lookup_witness :
  dict_get (merge_args (parameters init_x_y) [VInt 1] [("x", VInt 7); ("y", VInt 2)]) "x"
  = match dict_get (combine (parameters init_x_y) [VInt 1]) "x" with
    | Some v => Some v
    | None => dict_get [("x", VInt 7); ("y", VInt 2)] "x"
    end.
Proof.
  apply (merge_args_lookup init_x_y [VInt 1] [("x", VInt 7); ("y", VInt 2)] "x").
  simpl. repeat constructor; simpl; intuition discriminate.
Defined.

Example positional_replaces_keyword :
  merge_args (parameters init_x_y) [VInt 1] [("x", VInt 7); ("y", VInt 2)]
  = [("x", VInt 1); ("y", VInt 2)].
Proof. reflexivity. Qed.

(** X8. Positional arguments beyond the parameters of the wrapped function
    (those other than [self]) are ignored: the call does exactly what it does
    without them, whatever the special items are. *)
Theorem decorated_drops_excess_positional (special_items : option (list string))
    (func : WrappedFunc) (self_ : value) (rest : list value) (kwargs : kwargs_t) :
  auto_field_assignment special_items func (self_ :: rest) kwargs
  = auto_field_assignment special_items func
      (self_ :: firstn (length (parameters func)) rest) kwargs.
Proof.
  unfold auto_field_assignment, decorated, prepare, merge_args.
  now rewrite <- combine_firstn_l.
Qed.

(** ** When the namespaces do isolate *)

(** X9. With plain identifiers as class names and tags without ["."], the
    canonical key determines the module, the class name and the tag: two
    registrations collide only if all three agree. *)
Theorem canonicalize_inj (A B : PyClass) (T U : string) :
  dotted (cls_name A) = false -> dotted (cls_name B) = false ->
  dotted T = false -> dotted U = false ->
  canonicalize A T = canonicalize B U ->
  cls_module A = cls_module B /\ cls_name A = cls_name B /\ T = U.
Proof.
  intros HA HB HT HU Heq. unfold canonicalize in Heq.
  apply qualified_name_inj in Heq as [Hns ->]; [|assumption..].
  apply qualified_name_inj in Hns as [Hm Hn]; auto.
Qed.

Lemma canonicalize_inj_witness :
  cls_module ShapeFactory = cls_module ShapeFactory
  /\ cls_name ShapeFactory = cls_name ShapeFactory
  /\ "Circle" = "Circle".
Proof.
  apply (canonicalize_inj ShapeFactory ShapeFactory "Circle" "Circle");
    reflexivity.
Defined.
